(** * Golden-Reel: the filter-generation client and the session handlers

    A shallow embedding of [src/services/geminiService.ts] (the module
    top level and [getVividWarmFilterCss]) and of the [App] component's
    state handlers ([handleImageUpload], [applyFilter], [handleReset]),
    followed by the properties of the session state machine and of the
    response validation.

    Strings are sequences of 8-bit code units (the Latin-1 range of a
    JavaScript string).  Logging ([console.error]) writes to no state the
    handlers read and is left out. *)

From Stdlib Require Import Ascii.
From stdpp Require Import base strings gmap.

Open Scope string_scope.

(** ** JavaScript values, exceptions and the runtime *)

Module Js.

(** The values [JSON.parse] can produce.  A number keeps its lexeme; an
    object keeps its members in source order, duplicates included. *)
#[local] Unset Elimination Schemes.
Inductive js_value : Type :=
| JNull
| JBool (b : bool)
| JNumber (lexeme : string)
| JString (s : string)
| JArray (items : list js_value)
| JObject (members : list (string * js_value)).
#[local] Set Elimination Schemes.

(** What a property read [v.name] yields on a parsed value: a parsed
    value, [undefined], or a function inherited from a built-in prototype
    (as [[].filter] does for [Array.prototype.filter]). *)
Inductive js_property : Type :=
| PropValue (v : js_value)
| PropUndefined
| PropBuiltinFunction.

(** The constructor of an [Error] object; every class below answers
    [instanceof Error] with true. *)
Inductive error_class : Type :=
| ErrorBase
| SyntaxError
| TypeError
| ErrorSubclass (name : string).

(** A thrown value (or the reason of a rejected promise). *)
Inductive js_thrown : Type :=
| ErrorObj (cls : error_class) (message : string)
| NonError (shown : string).

(** The completion of a call: a returned value or a thrown one. *)
Inductive outcome (A : Type) : Type :=
| Returns (a : A)
| Throws (e : js_thrown).
Arguments Returns {A} a.
Arguments Throws {A} e.

#[global] Instance outcome_ret : MRet outcome := λ A a, Returns a.
#[global] Instance outcome_bind : MBind outcome :=
  λ A B f m, match m with Returns a => f a | Throws e => Throws e end.

(** [try { body } catch (e) { handler(e) }] *)
Definition try_catch {A} (body : outcome A) (handler : js_thrown → outcome A)
  : outcome A :=
  match body with
  | Returns a => Returns a
  | Throws e => handler e
  end.

(** Truthiness of a [string | null | undefined]: [null], [undefined] and
    the empty string are falsy. *)
Definition truthy (v : option string) : bool :=
  match v with
  | Some s => negb (String.eqb s "")
  | None => false
  end.

(** White space and line terminators that [String.prototype.trim] strips,
    among the code units below 256: TAB, LF, VT, FF, CR, SP and NBSP. *)
Definition is_white_space (c : Ascii.ascii) : bool :=
  bool_decide (Ascii.N_of_ascii c ∈ [9; 10; 11; 12; 13; 32; 160]%N).

Fixpoint trimStart (s : string) : string :=
  match s with
  | EmptyString => EmptyString
  | String c rest => if is_white_space c then trimStart rest else s
  end.

Fixpoint trimEnd (s : string) : string :=
  match s with
  | EmptyString => EmptyString
  | String c rest =>
      match trimEnd rest with
      | EmptyString => if is_white_space c then EmptyString else String c EmptyString
      | kept => String c kept
      end
  end.

(** [s.trim()] *)
Definition trim (s : string) : string := trimEnd (trimStart s).

(** The parts of the JavaScript engine the client calls and this
    development does not fix: the JSON parser, and the messages of the
    [TypeError]s raised by a property read on [null] or [undefined]. *)
Class JsRuntime : Type := {
  (** [JSON.parse(text)]: [inl m] when it throws a [SyntaxError] with
      message [m], [inr v] when it returns [v]. *)
  JSON_parse : string → string + js_value;
  (** message of the [TypeError] of [null.filter] *)
  null_filter_message : string;
  (** message of the [TypeError] of [undefined.trim] *)
  undefined_trim_message : string;
}.

(** The last member named [key], as [JSON.parse] keeps the lexically last
    of duplicate names. *)
Fixpoint last_member (key : string) (members : list (string * js_value))
  : option js_value :=
  match members with
  | [] => None
  | (k, v) :: rest =>
      match last_member key rest with
      | Some later => Some later
      | None => if String.eqb k key then Some v else None
      end
  end.

(** [result.filter] on a value returned by [JSON.parse]. *)
Definition get_filter `{JsRuntime} (result : js_value) : outcome js_property :=
  match result with
  | JNull => Throws (ErrorObj TypeError null_filter_message)
  | JObject members =>
      Returns (match last_member "filter" members with
               | Some v => PropValue v
               | None => PropUndefined
               end)
  | JArray _ => Returns PropBuiltinFunction
  | JBool _ | JNumber _ | JString _ => Returns PropUndefined
  end.

End Js.

(** ** [services/geminiService.ts] *)

Module GeminiService.
Import Js.

(** *** Module top level (lines 4-10) *)

(** [new GoogleGenAI({ apiKey: API_KEY })]: the client keeps the
    credential it was given ([string | undefined] for the compiler). *)
Record GoogleGenAI : Type := { apiKey : option string }.

(** What the module holds once its top level has run. *)
Record Module_ : Type := { ai : GoogleGenAI }.

(** Evaluating the module: read [process.env.API_KEY], throw when it is
    falsy, otherwise build the client. *)
Definition load (env : gmap string string) : outcome Module_ :=
  let API_KEY := env !! "API_KEY" in
  if negb (truthy API_KEY) then
    Throws (ErrorObj ErrorBase "API_KEY environment variable not set.")
  else
    Returns {| ai := {| apiKey := API_KEY |} |}.

(** *** [getVividWarmFilterCss] (lines 27-68) *)

(** How [await ai.models.generateContent(...)] ends: with a response
    whose [text] is a string or [undefined], or with a thrown value. *)
Inductive api_result : Type :=
| Resolved (text : option string)
| Rejected (reason : js_thrown).

Section Client.
Context `{rt : JsRuntime}.

(** [await ai.models.generateContent(...)] *)
Definition await_response (r : api_result) : outcome (option string) :=
  match r with
  | Resolved text => Returns text
  | Rejected reason => Throws reason
  end.

(** [response.text.trim()] *)
Definition text_trim (text : option string) : outcome string :=
  match text with
  | Some s => Returns (trim s)
  | None => Throws (ErrorObj TypeError undefined_trim_message)
  end.

(** [JSON.parse(jsonText)] *)
Definition parse (jsonText : string) : outcome js_value :=
  match JSON_parse jsonText with
  | inl message => Throws (ErrorObj SyntaxError message)
  | inr v => Returns v
  end.

(** The body of the [try] block (lines 29-59). *)
Definition try_body (r : api_result) : outcome string :=
  text ← await_response r;
  jsonText ← text_trim text;
  if negb (truthy (Some jsonText)) then
    Throws (ErrorObj ErrorBase "API returned an empty response.")
  else
    result ← parse jsonText;
    filter ← get_filter result;
    match filter with
    | PropValue (JString s) =>
        if (0 <? String.length s)%nat then Returns s
        else Throws (ErrorObj ErrorBase "Invalid or empty filter value in API response.")
    | _ => Throws (ErrorObj ErrorBase "Invalid or empty filter value in API response.")
    end.

(** The [catch] block (lines 61-67): [error instanceof Error] holds of
    an [ErrorObj] of any class. *)
Definition catch_block (error : js_thrown) : outcome string :=
  match error with
  | ErrorObj _ message => Throws (ErrorObj ErrorBase ("Gemini API Error: " +:+ message))
  | NonError _ => Throws (ErrorObj ErrorBase
        "An unexpected error occurred while communicating with the Gemini API.")
  end.

Definition getVividWarmFilterCss (r : api_result) : outcome string :=
  try_catch (try_body r) catch_block.

End Client.

End GeminiService.

(** ** The [App] component: session state and handlers *)

Module App.
Import Js GeminiService.

(** The four [useState] cells of [App] (lines 151-154).  A handler reads
    the cells as of the latest render; between two events these are
    their current values, and a setter called with a value overwrites
    its cell whatever the order of the batched calls. *)
Record Session : Type := {
  originalImage : option string;
  filteredCss : option string;
  isLoading : bool;
  error : option string;
}.

Definition setOriginalImage (v : option string) (s : Session) : Session :=
  {| originalImage := v; filteredCss := filteredCss s;
     isLoading := isLoading s; error := error s |}.
Definition setFilteredCss (v : option string) (s : Session) : Session :=
  {| originalImage := originalImage s; filteredCss := v;
     isLoading := isLoading s; error := error s |}.
Definition setIsLoading (v : bool) (s : Session) : Session :=
  {| originalImage := originalImage s; filteredCss := filteredCss s;
     isLoading := v; error := error s |}.
Definition setError (v : option string) (s : Session) : Session :=
  {| originalImage := originalImage s; filteredCss := filteredCss s;
     isLoading := isLoading s; error := v |}.

(** The initial values of the cells. *)
Definition initial_session : Session :=
  {| originalImage := None; filteredCss := None; isLoading := false; error := None |}.

(** [handleImageUpload] (lines 156-164) starts a [FileReader] and changes
    no cell; its [onloadend] callback runs when the read ends, well or
    badly, with [reader.result]: the data URL, or [null] after a failed
    read.  [onloadend result] is that callback. *)
Definition onloadend (result : option string) (s : Session) : Session :=
  setError None (setFilteredCss None (setOriginalImage result s)).

(** [handleReset] (lines 185-190). *)
Definition handleReset (s : Session) : Session :=
  setIsLoading false (setError None (setFilteredCss None (setOriginalImage None s))).

(** The component together with the calls of [getVividWarmFilterCss] it
    has made: [issued] counts them (a call is named by its rank) and
    [awaiting] holds those whose promise has not settled, each with the
    rest of one [applyFilter] run suspended on it. *)
Record World : Type := {
  session : Session;
  issued : nat;
  awaiting : gset nat;
}.

Definition initial_world : World :=
  {| session := initial_session; issued := 0; awaiting := ∅ |}.

Definition with_session (f : Session → Session) (w : World) : World :=
  {| session := f (session w); issued := issued w; awaiting := awaiting w |}.

(** [applyFilter] up to its [await] (lines 167-174): return when no image
    is held, else set the three cells and call the service. *)
Definition applyFilter (w : World) : World :=
  if negb (truthy (originalImage (session w))) then w
  else
    {| session := setFilteredCss None (setError None (setIsLoading true (session w)));
       issued := S (issued w);
       awaiting := {[ issued w ]} ∪ awaiting w |}.

(** [applyFilter] from its [await] on (lines 174-182), given how the
    awaited call ended. *)
Definition applyFilter_resume (settled : outcome string) (s : Session) : Session :=
  let after_try :=
    match settled with
    | Returns cssFilter => setFilteredCss (Some cssFilter) s
    | Throws err =>
        let errorMessage :=
          match err with
          | ErrorObj _ message => message
          | NonError _ => "An unknown error occurred."
          end in
        setError (Some ("Failed to apply filter. " +:+ errorMessage)) s
    end in
  setIsLoading false after_try.

(** What the rendered page lets the user do (lines 204-245): the uploader
    is shown without an image, the two buttons with one, and the apply
    button carries [disabled={isLoading}]. *)
Definition shows_uploader (s : Session) : bool := negb (truthy (originalImage s)).
Definition shows_buttons (s : Session) : bool := truthy (originalImage s).
Definition apply_button_enabled (s : Session) : bool :=
  shows_buttons s && negb (isLoading s).

(** A click on the apply button: [onClick={applyFilter}] when the button
    is there and enabled, nothing otherwise. *)
Definition click_apply (w : World) : World :=
  if apply_button_enabled (session w) then applyFilter w else w.

(** The events the component reacts to. *)
Inductive Event : Type :=
| ImageLoaded (result : option string)
| RequestFilter
| Reset
| Settled (call : nat) (r : api_result).

Section Machine.
Context `{rt : JsRuntime}.

(** The promise of [call] settles with [r]: [getVividWarmFilterCss]
    finishes and the suspended [applyFilter] resumes.  A promise settles
    once, so a call no longer awaited changes nothing. *)
Definition settle (call : nat) (r : api_result) (w : World) : World :=
  if decide (call ∈ awaiting w) then
    {| session := applyFilter_resume (getVividWarmFilterCss r) (session w);
       issued := issued w;
       awaiting := awaiting w ∖ {[ call ]} |}
  else w.

Definition step (w : World) (e : Event) : World :=
  match e with
  | ImageLoaded result => with_session (onloadend result) w
  | RequestFilter => applyFilter w
  | Reset => with_session handleReset w
  | Settled call r => settle call r w
  end.

Definition run (w : World) (events : list Event) : World :=
  foldl step w events.

End Machine.

(** Evaluating the module of [App]: its [import] of the service module
    runs that module's top level first; the component starts from the
    initial cells. *)
Definition load (env : gmap string string) : outcome World :=
  _ ← GeminiService.load env;
  Returns initial_world.

End App.

(** ** A runtime to run the handlers on

    An instance of [JsRuntime] for closed examples: a recursive-descent
    reader of JSON text over 8-bit code units (a [\u] escape must name a
    code unit below 256), and V8's wording of the two [TypeError]s.  The
    general theorems below are about any runtime. *)

Module SampleRuntime.
Import Js.

Definition code (c : Ascii.ascii) : N := Ascii.N_of_ascii c.

Definition is_json_space (c : Ascii.ascii) : bool :=
  bool_decide (code c ∈ [9; 10; 13; 32]%N).

Definition is_digit (c : Ascii.ascii) : bool :=
  ((48 <=? code c) && (code c <=? 57))%N.

Definition hex_digit (c : Ascii.ascii) : option N :=
  let n := code c in
  if ((48 <=? n) && (n <=? 57))%N then Some (n - 48)%N
  else if ((65 <=? n) && (n <=? 70))%N then Some (n - 55)%N
  else if ((97 <=? n) && (n <=? 102))%N then Some (n - 87)%N
  else None.

Fixpoint skip_space (s : string) : string :=
  match s with
  | String c rest => if is_json_space c then skip_space rest else s
  | EmptyString => EmptyString
  end.

(** The character an escape letter stands for. *)
Definition unescape (c : Ascii.ascii) : option Ascii.ascii :=
  match code c with
  | 34%N => Some "034"%char
  | 92%N => Some "092"%char
  | 47%N => Some "/"%char
  | 98%N => Some "008"%char
  | 102%N => Some "012"%char
  | 110%N => Some "010"%char
  | 114%N => Some "013"%char
  | 116%N => Some "009"%char
  | _ => None
  end.

Definition cons_char (c : Ascii.ascii) (r : option (string * string))
  : option (string * string) :=
  match r with
  | Some (body, rest) => Some (String c body, rest)
  | None => None
  end.

(** A string literal from just after its opening quote: the decoded body
    and the text after the closing quote. *)
Fixpoint read_string (s : string) : option (string * string) :=
  match s with
  | EmptyString => None
  | String c rest =>
      if (code c =? 34)%N then Some (EmptyString, rest)
      else if (code c =? 92)%N then
        match rest with
        | EmptyString => None
        | String e rest1 =>
            if (code e =? 117)%N then
              match rest1 with
              | String h1 (String h2 (String h3 (String h4 rest2))) =>
                  match hex_digit h1, hex_digit h2, hex_digit h3, hex_digit h4 with
                  | Some a, Some b, Some c', Some d =>
                      let n := (((a * 16 + b) * 16 + c') * 16 + d)%N in
                      if (n <? 256)%N
                      then cons_char (Ascii.ascii_of_N n) (read_string rest2)
                      else None
                  | _, _, _, _ => None
                  end
              | _ => None
              end
            else
              match unescape e with
              | Some ch => cons_char ch (read_string rest1)
              | None => None
              end
        end
      else if (code c <? 32)%N then None
      else cons_char c (read_string rest)
  end.

Fixpoint read_digits (s : string) : string * string :=
  match s with
  | String c rest =>
      if is_digit c then
        let '(ds, rest') := read_digits rest in (String c ds, rest')
      else (EmptyString, s)
  | EmptyString => (EmptyString, EmptyString)
  end.

(** A number: its lexeme and the text after it. *)
Definition read_number (s : string) : option (string * string) :=
  let '(sign, s1) :=
    match s with
    | String "-" r => ("-", r)
    | _ => ("", s)
    end in
  let '(int, s2) := read_digits s1 in
  match int with
  | EmptyString => None
  | String "0" (String _ _) => None
  | _ =>
      let frac :=
        match s2 with
        | String "." r =>
            let '(ds, r') := read_digits r in
            if String.eqb ds "" then None else Some ("." +:+ ds, r')
        | _ => Some ("", s2)
        end in
      match frac with
      | None => None
      | Some (f, s3) =>
          match s3 with
          | String e r =>
              if ((code e =? 101) || (code e =? 69))%N then
                let '(esign, r1) :=
                  match r with
                  | String "+" r' => ("+", r')
                  | String "-" r' => ("-", r')
                  | _ => ("", r)
                  end in
                let '(ds, r2) := read_digits r1 in
                if String.eqb ds "" then None
                else Some (sign +:+ int +:+ f +:+ String e esign +:+ ds, r2)
              else Some (sign +:+ int +:+ f, s3)
          | EmptyString => Some (sign +:+ int +:+ f, s3)
          end
      end
  end.

(** A value, the elements of an array after its bracket and the members
    of an object after its brace.  [fuel] bounds the depth of the calls:
    of two calls in a row one at least reads a character, so twice the
    length of the text is enough. *)
Fixpoint read_value (fuel : nat) (s : string) : option (js_value * string) :=
  match fuel with
  | 0 => None
  | S fuel =>
      match skip_space s with
      | String "n" (String "u" (String "l" (String "l" rest))) => Some (JNull, rest)
      | String "t" (String "r" (String "u" (String "e" rest))) => Some (JBool true, rest)
      | String "f" (String "a" (String "l" (String "s" (String "e" rest)))) =>
          Some (JBool false, rest)
      | String "034" rest =>
          match read_string rest with
          | Some (body, rest') => Some (JString body, rest')
          | None => None
          end
      | String "[" rest =>
          match skip_space rest with
          | String "]" rest' => Some (JArray [], rest')
          | _ =>
              match read_elements fuel rest with
              | Some (items, rest') => Some (JArray items, rest')
              | None => None
              end
          end
      | String "{" rest =>
          match skip_space rest with
          | String "}" rest' => Some (JObject [], rest')
          | _ =>
              match read_members fuel rest with
              | Some (members, rest') => Some (JObject members, rest')
              | None => None
              end
          end
      | other =>
          match read_number other with
          | Some (lexeme, rest) => Some (JNumber lexeme, rest)
          | None => None
          end
      end
  end
with read_elements (fuel : nat) (s : string) : option (list js_value * string) :=
  match fuel with
  | 0 => None
  | S fuel =>
      match read_value fuel s with
      | Some (v, rest) =>
          match skip_space rest with
          | String "]" rest' => Some ([v], rest')
          | String "," rest' =>
              match read_elements fuel rest' with
              | Some (vs, rest'') => Some (v :: vs, rest'')
              | None => None
              end
          | _ => None
          end
      | None => None
      end
  end
with read_members (fuel : nat) (s : string)
  : option (list (string * js_value) * string) :=
  match fuel with
  | 0 => None
  | S fuel =>
      match skip_space s with
      | String "034" rest =>
          match read_string rest with
          | Some (key, rest1) =>
              match skip_space rest1 with
              | String ":" rest2 =>
                  match read_value fuel rest2 with
                  | Some (v, rest3) =>
                      match skip_space rest3 with
                      | String "}" rest' => Some ([(key, v)], rest')
                      | String "," rest' =>
                          match read_members fuel rest' with
                          | Some (ms, rest'') => Some ((key, v) :: ms, rest'')
                          | None => None
                          end
                      | _ => None
                      end
                  | None => None
                  end
              | _ => None
              end
          | None => None
          end
      | _ => None
      end
  end.

Definition parse_json (text : string) : string + js_value :=
  match read_value (2 * String.length text + 2) text with
  | Some (v, rest) =>
      match skip_space rest with
      | EmptyString => inr v
      | _ => inl "Unexpected non-whitespace character after JSON"
      end
  | None => inl "Unexpected token in JSON"
  end.

#[global] Instance sample_runtime : JsRuntime := {|
  JSON_parse := parse_json;
  null_filter_message := "Cannot read properties of null (reading 'filter')";
  undefined_trim_message := "Cannot read properties of undefined (reading 'trim')";
|}.

(** The double quote, to write JSON text with. *)
Definition q : string := String "034" EmptyString.

End SampleRuntime.

(** ** Notions used by the properties *)

Module Notions.
Import Js GeminiService App.

(** The own [filter] member of a parsed payload, when it is an object
    that has one. *)
Definition filter_field (v : js_value) : option js_value :=
  match v with
  | JObject members => last_member "filter" members
  | _ => None
  end.

(** The states of the session machine, read off the four cells. *)
Inductive Phase : Type := Idle | Ready | Requesting | Succeeded | Failed.

Definition phase (s : Session) : Phase :=
  if negb (truthy (originalImage s)) then Idle
  else if isLoading s then Requesting
  else if bool_decide (is_Some (error s)) then Failed
  else if bool_decide (is_Some (filteredCss s)) then Succeeded
  else Ready.

(** The session invariant: a filter is never held while a request is
    pending. *)
Definition pending_excludes_filter (s : Session) : Prop :=
  ¬ (isLoading s = true ∧ is_Some (filteredCss s)).

(** The session a pending request was started in has neither a filter nor
    an error. *)
Definition pending_is_clean (s : Session) : Prop :=
  isLoading s = true → filteredCss s = None ∧ error s = None.

(** An event other than the settlement of [call]. *)
Definition not_settlement_of (call : nat) (e : Event) : Prop :=
  match e with
  | Settled c _ => c ≠ call
  | _ => True
  end.

(** Scenario A's reply and an image handle. *)
Definition scenario_A_reply : string :=
  "{" +:+ SampleRuntime.q +:+ "filter" +:+ SampleRuntime.q +:+ ": "
      +:+ SampleRuntime.q +:+ "saturate(1.2) contrast(1.1)" +:+ SampleRuntime.q +:+ "}".

Definition sample_image : string := "data:image/png;base64,iVBORw0KGgo=".

(** The world after an image load and a filter request on the sample
    runtime: call 0 is awaited. *)
Definition requesting_world : World :=
  run initial_world [ImageLoaded (Some sample_image); RequestFilter].

End Notions.

(** ** The [ImageUploader] component (lines 81-121) *)

Module ImageUploader.

(** What the handlers read of a [File]: its name and its declared media
    type. *)
Record File : Type := { name : string; type : string }.

(** [files?.[0]]: the first file of the list, [undefined] when the list
    is missing or empty. *)
Definition first_file (files : option (list File)) : option File :=
  match files with
  | Some (file :: _) => Some file
  | _ => None
  end.

(** [handleFileChange] (lines 82-87): the file handed to [onImageUpload],
    if any. *)
Definition handleFileChange (files : option (list File)) : option File :=
  match first_file files with
  | Some file => Some file
  | None => None
  end.

(** [handleDrop] (lines 89-96): the file handed to [onImageUpload], if
    any; [file.type.startsWith('image/')] is a prefix test. *)
Definition handleDrop (files : option (list File)) : option File :=
  match first_file files with
  | Some file => if String.prefix "image/" (type file) then Some file else None
  | None => None
  end.

End ImageUploader.

(** ** What [App] renders, and the page as the user drives it *)

Module Page.
Import Js GeminiService App ImageUploader.

(** [filterCss || 'none'] (line 138) *)
Definition style_filter (filterCss : option string) : string :=
  match filterCss with
  | Some css => if String.eqb css "" then "none" else css
  | None => "none"
  end.

(** One [ImageDisplay] (lines 130-147): the image, the [filter] style it
    carries and whether the loader covers it. *)
Record ImageDisplayView : Type := {
  title : string;
  imageUrl : string;
  filter_style : string;
  overlay : bool;
}.

Definition ImageDisplay
    (title imageUrl : string) (filterCss : option string) (isLoading : bool)
  : ImageDisplayView :=
  {| title := title; imageUrl := imageUrl;
     filter_style := style_filter filterCss; overlay := isLoading |}.

(** The block rendered under [originalImage && (...)] (lines 206-247). *)
Record Panel : Type := {
  original : ImageDisplayView;
  vivid : ImageDisplayView;
  alert : option string;
  apply_disabled : bool;
  apply_label : string;
}.

Record PageView : Type := {
  uploader : bool;
  panel : option Panel;
}.

(** The [main] element of [App] (lines 203-248). *)
Definition render (s : Session) : PageView :=
  {| uploader := negb (truthy (originalImage s));
     panel :=
       match originalImage s with
       | Some url =>
           if truthy (Some url) then
             Some {| original := ImageDisplay "Original" url None false;
                     vivid := ImageDisplay "Vivid Warm" url (filteredCss s) (isLoading s);
                     alert := if truthy (error s) then error s else None;
                     apply_disabled := isLoading s;
                     apply_label := if isLoading s then "Applying Filter..."
                                    else "Apply Vivid Warm Filter" |}
           else None
       | None => None
       end |}.

(** The component with the file reads [handleImageUpload] has started
    and that have not ended. *)
Record Page : Type := {
  world : World;
  reading : nat;
}.

Definition initial_page : Page := {| world := initial_world; reading := 0 |}.

(** What can happen to the page: the user picks or drops files on the
    uploader, a file read ends, the user clicks a button, a call of the
    service settles. *)
Inductive UiEvent : Type :=
| PickFiles (files : option (list File))
| DropFiles (files : option (list File))
| ReadEnds (result : option string)
| ClickApply
| ClickReset
| CallSettles (call : nat) (r : api_result).

Section Machine.
Context `{rt : JsRuntime}.

(** [handleImageUpload(file)] (lines 156-164) up to [readAsDataURL]: one
    more read is under way. *)
Definition handleImageUpload (p : Page) : Page :=
  {| world := world p; reading := S (reading p) |}.

(** An uploader handler reaches the page only while the uploader is
    rendered, the buttons only while the panel is; a reader calls
    [onloadend] once. *)
Definition ui_step (p : Page) (e : UiEvent) : Page :=
  match e with
  | PickFiles files =>
      if uploader (render (session (world p))) then
        match handleFileChange files with
        | Some _ => handleImageUpload p
        | None => p
        end
      else p
  | DropFiles files =>
      if uploader (render (session (world p))) then
        match handleDrop files with
        | Some _ => handleImageUpload p
        | None => p
        end
      else p
  | ReadEnds result =>
      match reading p with
      | 0 => p
      | S remaining =>
          {| world := step (world p) (ImageLoaded result); reading := remaining |}
      end
  | ClickApply => {| world := click_apply (world p); reading := reading p |}
  | ClickReset =>
      match panel (render (session (world p))) with
      | Some _ => {| world := step (world p) Reset; reading := reading p |}
      | None => p
      end
  | CallSettles call r =>
      {| world := step (world p) (Settled call r); reading := reading p |}
  end.

Definition ui_run (p : Page) (events : list UiEvent) : Page :=
  foldl ui_step p events.

End Machine.

End Page.

(** ** Further notions *)

Module MoreNotions.
Import Js GeminiService App ImageUploader Page Notions.

(** A text of white space only (the empty text included). *)
Fixpoint only_white_space (s : string) : bool :=
  match s with
  | EmptyString => true
  | String c rest => is_white_space c && only_white_space rest
  end.

(** A stored filter is never the empty string. *)
Definition filter_not_empty (s : Session) : Prop :=
  ∀ css, filteredCss s = Some css → css ≠ "".

(** A stored error is the handler's prefix followed by one of the two
    kinds of message of the client. *)
Definition error_well_formed (s : Session) : Prop :=
  ∀ m, error s = Some m →
    (∃ underlying,
       m = "Failed to apply filter. " +:+ ("Gemini API Error: " +:+ underlying))
    ∨ m = "Failed to apply filter. "
          +:+ "An unexpected error occurred while communicating with the Gemini API.".

(** While the session is pending some call is awaited. *)
Definition pending_has_call (w : World) : Prop :=
  isLoading (session w) = true → ∃ call, call ∈ awaiting w.

(** The session is pending exactly when a call is awaited, and then it
    is the only one. *)
Definition one_call_at_most (w : World) : Prop :=
  if isLoading (session w) then size (awaiting w) = 1 else awaiting w = ∅.

(** An event of the request cycle: a request or a settlement. *)
Definition of_request_cycle (e : Event) : bool :=
  match e with
  | RequestFilter | Settled _ _ => true
  | ImageLoaded _ | Reset => false
  end.

Definition is_reset (e : UiEvent) : bool :=
  match e with
  | ClickReset => true
  | _ => false
  end.

Definition sample_file : File := {| name := "photo.png"; type := "image/png" |}.

End MoreNotions.

(** ** Properties of the filter-generation client *)

Module ClientProps.
Import Js GeminiService Notions.

Section AnyRuntime.
Context `{rt : JsRuntime}.

Lemma truthy_Some_false (s : string) : truthy (Some s) = false ↔ s = "".
Proof.
  unfold truthy. rewrite negb_false_iff. apply String.eqb_eq.
Qed.

Lemma length_pos_nonempty (s : string) : (0 <? String.length s)%nat = true ↔ s ≠ "".
Proof.
  destruct s as [|c s]; simpl; split; intros; try done.
Qed.

(** [result.filter] is a string exactly when the payload is an object
    whose last [filter] member is one. *)
Lemma get_filter_string (v : js_value) (s : string) :
  get_filter v = Returns (PropValue (JString s)) ↔ filter_field v = Some (JString s).
Proof.
  destruct v as [| b | n | t | items | members]; simpl; split; intros Hx;
    try discriminate.
  - destruct (last_member "filter" members); congruence.
  - by rewrite Hx.
Qed.

(** [getVividWarmFilterCss] on a reply that carries a text, step by
    step. *)
Lemma on_reply (text : string) :
  getVividWarmFilterCss (Resolved (Some text))
  = if String.eqb (trim text) "" then
      Throws (ErrorObj ErrorBase "Gemini API Error: API returned an empty response.")
    else
      match JSON_parse (trim text) with
      | inl message => Throws (ErrorObj ErrorBase ("Gemini API Error: " +:+ message))
      | inr v =>
          match get_filter v with
          | Throws e => catch_block e
          | Returns (PropValue (JString s)) =>
              if (0 <? String.length s)%nat then Returns s
              else Throws (ErrorObj ErrorBase
                     "Gemini API Error: Invalid or empty filter value in API response.")
          | Returns _ =>
              Throws (ErrorObj ErrorBase
                "Gemini API Error: Invalid or empty filter value in API response.")
          end
      end.
Proof.
  unfold getVividWarmFilterCss, try_body, parse, mbind, outcome_bind.
  simpl. destruct (String.eqb (trim text) ""); simpl; [reflexivity|].
  destruct (JSON_parse (trim text)) as [message|v]; simpl; [reflexivity|].
  destruct (get_filter v) as [[[| b | n | s | items | members] | |]|e];
    simpl; try reflexivity.
  by destruct (0 <? String.length s)%nat.
Qed.

(** A reply that is empty once trimmed. *)
Lemma empty_reply (text : string) :
  trim text = "" →
  getVividWarmFilterCss (Resolved (Some text))
  = Throws (ErrorObj ErrorBase "Gemini API Error: API returned an empty response.").
Proof.
  intros Ht. rewrite on_reply. by rewrite Ht.
Qed.

(** A reply [JSON.parse] rejects. *)
Lemma unparsable_reply (text message : string) :
  trim text ≠ "" →
  JSON_parse (trim text) = inl message →
  getVividWarmFilterCss (Resolved (Some text))
  = Throws (ErrorObj ErrorBase ("Gemini API Error: " +:+ message)).
Proof.
  intros Ht Hp. rewrite on_reply.
  destruct (String.eqb_spec (trim text) ""); [done|]. by rewrite Hp.
Qed.

(** A reply that parses to [null]: the read of [result.filter] throws. *)
Lemma null_reply (text : string) :
  trim text ≠ "" →
  JSON_parse (trim text) = inr JNull →
  getVividWarmFilterCss (Resolved (Some text))
  = Throws (ErrorObj ErrorBase ("Gemini API Error: " +:+ null_filter_message)).
Proof.
  intros Ht Hp. rewrite on_reply.
  destruct (String.eqb_spec (trim text) ""); [done|]. by rewrite Hp.
Qed.

(** A reply that parses to anything but [null] and has no non-empty
    string as its [filter]. *)
Lemma invalid_reply (text : string) (v : js_value) :
  trim text ≠ "" →
  JSON_parse (trim text) = inr v →
  v ≠ JNull →
  (∀ s, filter_field v = Some (JString s) → s = "") →
  getVividWarmFilterCss (Resolved (Some text))
  = Throws (ErrorObj ErrorBase
      "Gemini API Error: Invalid or empty filter value in API response.").
Proof.
  intros Ht Hp Hnull Hf. rewrite on_reply.
  destruct (String.eqb_spec (trim text) ""); [done|]. rewrite Hp.
  destruct v as [| b | num | t | items | members]; try done.
  cbn [get_filter]. cbn [filter_field] in Hf.
  destruct (last_member "filter" members) as [[| b | num | t | items | ms]|];
    try done.
  by rewrite (Hf t eq_refl).
Qed.

(** A reply whose [filter] is a non-empty string. *)
Lemma valid_reply (text : string) (v : js_value) (s : string) :
  trim text ≠ "" →
  JSON_parse (trim text) = inr v →
  filter_field v = Some (JString s) →
  s ≠ "" →
  getVividWarmFilterCss (Resolved (Some text)) = Returns s.
Proof.
  intros Ht Hp Hf Hs. rewrite on_reply.
  destruct (String.eqb_spec (trim text) ""); [done|]. rewrite Hp.
  apply get_filter_string in Hf. rewrite Hf.
  apply length_pos_nonempty in Hs. by rewrite Hs.
Qed.

(** Whatever is thrown inside the [try] block leaves as a plain [Error]. *)
Lemma throws_plain_Error (r : api_result) (e : js_thrown) :
  getVividWarmFilterCss r = Throws e → ∃ message, e = ErrorObj ErrorBase message.
Proof.
  unfold getVividWarmFilterCss, try_catch.
  destruct (try_body r) as [css|[cls m|x]]; cbn [catch_block]; intros He;
    inversion He; eauto.
Qed.

(** C10: every failure of [getVividWarmFilterCss] reaches the caller as
    one thrown plain [Error], whatever the class of the underlying error.
    A rejection by an [Error] of any class is re-thrown with its message
    after "Gemini API Error: "; a rejection by a value that is no [Error]
    is thrown as the fixed fallback message; a reply without text, an
    empty reply, a reply the parser rejects, the reply [null] and a reply
    without a non-empty string as its [filter] each throw the prefixed
    message of the engine's error or of the client's own validation
    error; any other reply returns its filter.  So whenever the client
    throws, it throws a plain [Error], and only the message text tells
    the failures apart. *)
Theorem failures_leave_as_one_prefixed_Error (r : api_result) :
  getVividWarmFilterCss r
  = match r with
    | Rejected (ErrorObj _ underlying) =>
        Throws (ErrorObj ErrorBase ("Gemini API Error: " +:+ underlying))
    | Rejected (NonError _) =>
        Throws (ErrorObj ErrorBase
          "An unexpected error occurred while communicating with the Gemini API.")
    | Resolved None =>
        Throws (ErrorObj ErrorBase ("Gemini API Error: " +:+ undefined_trim_message))
    | Resolved (Some text) =>
        if String.eqb (trim text) "" then
          Throws (ErrorObj ErrorBase
            ("Gemini API Error: " +:+ "API returned an empty response."))
        else
          match JSON_parse (trim text) with
          | inl underlying =>
              Throws (ErrorObj ErrorBase ("Gemini API Error: " +:+ underlying))
          | inr JNull =>
              Throws (ErrorObj ErrorBase ("Gemini API Error: " +:+ null_filter_message))
          | inr v =>
              match filter_field v with
              | Some (JString css) =>
                  if String.eqb css "" then
                    Throws (ErrorObj ErrorBase
                      ("Gemini API Error: "
                       +:+ "Invalid or empty filter value in API response."))
                  else Returns css
              | _ =>
                  Throws (ErrorObj ErrorBase
                    ("Gemini API Error: "
                     +:+ "Invalid or empty filter value in API response."))
              end
          end
    end
  ∧ match getVividWarmFilterCss r with
    | Returns _ => True
    | Throws e => ∃ message, e = ErrorObj ErrorBase message
    end.
Proof.
  split.
  - destruct r as [[text|]|[cls underlying|shown]]; try reflexivity.
    rewrite on_reply.
    destruct (String.eqb (trim text) ""); [reflexivity|].
    destruct (JSON_parse (trim text)) as [underlying|v]; [reflexivity|].
    destruct v as [| b | num | t | items | members];
      cbn [get_filter filter_field]; try reflexivity.
    destruct (last_member "filter" members) as [[| b | num | t | items | ms]|];
      try reflexivity.
    by destruct t.
  - destruct (getVividWarmFilterCss r) as [css|e] eqn:Hr; [done|].
    by apply (throws_plain_Error r).
Qed.

End AnyRuntime.

(** The rejection of scenario C, of whatever class, leaves as a plain
    [Error] with the prefixed message. *)
Lemma failures_leave_as_one_prefixed_Error_witness :
  getVividWarmFilterCss (Rejected (ErrorObj (ErrorSubclass "ApiError") "timeout"))
  = Throws (ErrorObj ErrorBase ("Gemini API Error: " +:+ "timeout"))
  ∧ match getVividWarmFilterCss
            (Rejected (ErrorObj (ErrorSubclass "ApiError") "timeout")) with
    | Returns _ => True
    | Throws e => ∃ message, e = ErrorObj ErrorBase message
    end.
Proof.
  exact (failures_leave_as_one_prefixed_Error (rt := SampleRuntime.sample_runtime)
           (Rejected (ErrorObj (ErrorSubclass "ApiError") "timeout"))).
Defined.

(** C5: the reply [null] is not empty once trimmed and [JSON.parse]
    accepts it, its [filter] is no non-empty string, and yet the failure
    is not the one of an invalid filter value: reading [filter] off [null]
    throws first, and the engine's message is what leaves. *)
Theorem null_reply_is_not_reported_as_invalid_filter :
  trim "null" ≠ ""
  ∧ JSON_parse (trim "null") = inr JNull
  ∧ filter_field JNull = None
  ∧ getVividWarmFilterCss (Resolved (Some "null"))
    = Throws (ErrorObj ErrorBase
        "Gemini API Error: Cannot read properties of null (reading 'filter')")
  ∧ getVividWarmFilterCss (Resolved (Some "null"))
    ≠ Throws (ErrorObj ErrorBase
        "Gemini API Error: Invalid or empty filter value in API response.").
Proof.
  repeat split; try reflexivity; vm_compute; discriminate.
Qed.

(** C8: without the credential in the environment, evaluating the service
    module throws at once, and so does evaluating [App], which imports
    it: no component, and no session to request a filter from, comes to
    exist. *)
Theorem missing_credential_fails_at_load (env : gmap string string) :
  env !! "API_KEY" = None →
  GeminiService.load env
  = Throws (ErrorObj ErrorBase "API_KEY environment variable not set.")
  ∧ App.load env
    = Throws (ErrorObj ErrorBase "API_KEY environment variable not set.").
Proof.
  intros Hkey. unfold App.load, GeminiService.load. rewrite Hkey. done.
Qed.

Lemma missing_credential_fails_at_load_witness :
  GeminiService.load (∅ : gmap string string)
  = Throws (ErrorObj ErrorBase "API_KEY environment variable not set.")
  ∧ App.load (∅ : gmap string string)
    = Throws (ErrorObj ErrorBase "API_KEY environment variable not set.").
Proof.
  apply (missing_credential_fails_at_load ∅). reflexivity.
Defined.

End ClientProps.

(** ** Properties of the session machine *)

Module SessionProps.
Import Js GeminiService App Notions.

(** Replace a [step] on the handler events by the handler it runs. *)
Ltac unfold_step :=
  repeat match goal with
  | |- context [step ?w RequestFilter] =>
      change (step w RequestFilter) with (applyFilter w)
  | |- context [step ?w (Settled ?c ?r)] =>
      change (step w (Settled c r)) with (settle c r w)
  end.

Section AnyRuntime.
Context `{rt : JsRuntime}.

Lemma run_nil (w : World) : run w [] = w.
Proof. reflexivity. Qed.

Lemma run_cons (w : World) (e : Event) (events : list Event) :
  run w (e :: events) = run (step w e) events.
Proof. reflexivity. Qed.

Lemma run_snoc (w : World) (events : list Event) (e : Event) :
  run w (events ++ [e]) = step (run w events) e.
Proof. apply foldl_snoc. Qed.

Lemma phase_Idle (s : Session) : phase s = Idle ↔ truthy (originalImage s) = false.
Proof.
  unfold phase. destruct (truthy (originalImage s)); simpl; [|done].
  split; [|done]. by repeat case_match.
Qed.

Lemma phase_Requesting (s : Session) :
  phase s = Requesting ↔ truthy (originalImage s) = true ∧ isLoading s = true.
Proof.
  unfold phase. destruct (truthy (originalImage s)); simpl.
  - destruct (isLoading s); [done|]. split; [by repeat case_match | by intros [_ ?]].
  - split; [done | by intros [? _]].
Qed.

(** *** What each event does to the cells *)

Lemma session_ImageLoaded (w : World) (result : option string) :
  session (step w (ImageLoaded result))
  = {| originalImage := result; filteredCss := None;
       isLoading := isLoading (session w); error := None |}.
Proof. reflexivity. Qed.

Lemma session_Reset (w : World) :
  session (step w Reset)
  = {| originalImage := None; filteredCss := None; isLoading := false; error := None |}.
Proof. reflexivity. Qed.

Lemma applyFilter_without_image (w : World) :
  truthy (originalImage (session w)) = false → applyFilter w = w.
Proof. intros Hi. unfold applyFilter. by rewrite Hi. Qed.

Lemma applyFilter_with_image (w : World) :
  truthy (originalImage (session w)) = true →
  applyFilter w
  = {| session := {| originalImage := originalImage (session w); filteredCss := None;
                     isLoading := true; error := None |};
       issued := S (issued w);
       awaiting := {[ issued w ]} ∪ awaiting w |}.
Proof. intros Hi. unfold applyFilter. by rewrite Hi. Qed.

Lemma settle_awaited (w : World) (call : nat) (r : api_result) :
  call ∈ awaiting w →
  settle call r w
  = {| session := applyFilter_resume (getVividWarmFilterCss r) (session w);
       issued := issued w;
       awaiting := awaiting w ∖ {[ call ]} |}.
Proof. intros Hc. unfold settle. by rewrite decide_True. Qed.

Lemma settle_not_awaited (w : World) (call : nat) (r : api_result) :
  call ∉ awaiting w → settle call r w = w.
Proof. intros Hc. unfold settle. by rewrite decide_False. Qed.

Lemma isLoading_resume (o : outcome string) (s : Session) :
  isLoading (applyFilter_resume o s) = false.
Proof. by destruct o. Qed.

Lemma originalImage_resume (o : outcome string) (s : Session) :
  originalImage (applyFilter_resume o s) = originalImage s.
Proof. by destruct o. Qed.

(** *** Invariants of [step] *)

Lemma step_pending_excludes_filter (w : World) (e : Event) :
  pending_excludes_filter (session w) →
  pending_excludes_filter (session (step w e)).
Proof.
  intros Hinv. destruct e as [result| | |call r]; unfold_step.
  - rewrite session_ImageLoaded. intros [_ [x Hx]]. discriminate.
  - destruct (truthy (originalImage (session w))) eqn:Hi.
    + rewrite applyFilter_with_image by done. intros [_ [x Hx]]. discriminate.
    + by rewrite applyFilter_without_image.
  - rewrite session_Reset. intros [Hl _]. discriminate.
  - destruct (decide (call ∈ awaiting w)) as [Hc|Hc].
    + rewrite settle_awaited by done. cbn [session].
      intros [Hl _]. by rewrite isLoading_resume in Hl.
    + by rewrite settle_not_awaited.
Qed.

Lemma step_pending_is_clean (w : World) (e : Event) :
  pending_is_clean (session w) → pending_is_clean (session (step w e)).
Proof.
  intros Hinv. destruct e as [result| | |call r]; unfold_step.
  - rewrite session_ImageLoaded. by intros _.
  - destruct (truthy (originalImage (session w))) eqn:Hi.
    + rewrite applyFilter_with_image by done. by intros _.
    + by rewrite applyFilter_without_image.
  - rewrite session_Reset. by intros _.
  - destruct (decide (call ∈ awaiting w)) as [Hc|Hc].
    + rewrite settle_awaited by done. cbn [session].
      intros Hl. by rewrite isLoading_resume in Hl.
    + by rewrite settle_not_awaited.
Qed.

Lemma run_pending_excludes_filter (events : list Event) (w : World) :
  pending_excludes_filter (session w) →
  pending_excludes_filter (session (run w events)).
Proof.
  revert w. induction events as [|e events IH]; intros w Hinv; [done|].
  rewrite run_cons. apply IH. by apply step_pending_excludes_filter.
Qed.

Lemma run_pending_is_clean (events : list Event) (w : World) :
  pending_is_clean (session w) → pending_is_clean (session (run w events)).
Proof.
  revert w. induction events as [|e events IH]; intros w Hinv; [done|].
  rewrite run_cons. apply IH. by apply step_pending_is_clean.
Qed.

(** A call stays awaited until its own settlement. *)
Lemma step_keeps_awaiting (w : World) (call : nat) (e : Event) :
  not_settlement_of call e → call ∈ awaiting w → call ∈ awaiting (step w e).
Proof.
  intros He Hc. destruct e as [result| | |c r]; cbn [step]; try done.
  - unfold applyFilter. case_match; [done|]. cbn [awaiting]. set_solver.
  - cbn [not_settlement_of] in He. unfold settle.
    case_decide; [|done]. cbn [awaiting]. set_solver.
Qed.

Lemma run_keeps_awaiting (events : list Event) (w : World) (call : nat) :
  Forall (not_settlement_of call) events →
  call ∈ awaiting w → call ∈ awaiting (run w events).
Proof.
  revert w. induction events as [|e events IH]; intros w Hev Hc; [done|].
  inversion Hev as [|? ? He Hrest]; subst.
  rewrite run_cons. apply IH; [done|]. by apply step_keeps_awaiting.
Qed.

(** C3: from a session that satisfies the invariant, after every event
    of any sequence of image loads, filter requests and resets (and of
    settlements of calls too) a pending request and a filter are not both
    held; after a reset the error is unset; and after a request made with
    an image held the session is pending with filter and error unset. *)
Theorem invariant_after_every_event
    (w0 : World) (events before after : list Event) (e : Event) :
  pending_excludes_filter (session w0) →
  events = (before ++ e :: after)%list →
  let w := run w0 before in
  let w' := step w e in
  pending_excludes_filter (session w')
  ∧ (e = Reset → error (session w') = None)
  ∧ (e = RequestFilter → truthy (originalImage (session w)) = true →
     isLoading (session w') = true
     ∧ filteredCss (session w') = None
     ∧ error (session w') = None).
Proof.
  intros Hinv _ w w'. subst w w'. split; [|split].
  - apply step_pending_excludes_filter. by apply run_pending_excludes_filter.
  - intros ->. by rewrite session_Reset.
  - intros -> Hi. unfold_step. by rewrite applyFilter_with_image.
Qed.

(** C4: a reset, from any state of the component, leaves every cell
    cleared: no image, no filter, no error, not pending; the session is
    Idle. *)
Theorem reset_yields_the_empty_Idle_session (w : World) :
  session (step w Reset)
  = {| originalImage := None; filteredCss := None; isLoading := false; error := None |}
  ∧ phase (session (step w Reset)) = Idle.
Proof. by rewrite session_Reset. Qed.

(** C7: a filter request in the Idle state, through the handler or
    through the page, changes no cell and makes no call. *)
Theorem request_in_Idle_changes_nothing (w : World) :
  phase (session w) = Idle →
  step w RequestFilter = w ∧ click_apply w = w.
Proof.
  intros Hidle%phase_Idle. unfold_step. split.
  - by apply applyFilter_without_image.
  - unfold click_apply, apply_button_enabled, shows_buttons. by rewrite Hidle.
Qed.

(** C2, as amended: while a request is pending the apply button is
    disabled, so a click makes no call and changes no cell.  The handler
    itself does not look at the pending flag: run in a pending session
    that holds an image it makes one more call, and changes no cell where
    the pending session has neither filter nor error. *)
Theorem request_while_pending (w : World) :
  isLoading (session w) = true →
  click_apply w = w
  ∧ (truthy (originalImage (session w)) = true →
     issued (applyFilter w) = S (issued w)
     ∧ awaiting (applyFilter w) = {[ issued w ]} ∪ awaiting w
     ∧ (pending_is_clean (session w) → session (applyFilter w) = session w)).
Proof.
  intros Hl. split.
  - unfold click_apply, apply_button_enabled. rewrite Hl.
    by rewrite andb_false_r.
  - intros Hi. rewrite applyFilter_with_image by done. cbn.
    repeat split. intros Hclean. destruct (Hclean Hl) as [Hf He].
    destruct (session w) as [img f l err]. cbn in *. by subst.
Qed.

(** C1, as amended: a call stays awaited through any events but its own
    settlement (resets and later requests included), and when it settles
    its outcome is written into the session of that moment: pending is
    cleared and the image kept; a returned descriptor becomes the filter,
    a failure becomes the error, prefixed with "Failed to apply
    filter. ". *)
Theorem stale_completion_is_applied
    (w : World) (call : nat) (events : list Event) (r : api_result) :
  call ∈ awaiting w →
  Forall (not_settlement_of call) events →
  let w1 := run w events in
  let w2 := step w1 (Settled call r) in
  call ∈ awaiting w1
  ∧ isLoading (session w2) = false
  ∧ originalImage (session w2) = originalImage (session w1)
  ∧ match getVividWarmFilterCss r with
    | Returns cssFilter =>
        filteredCss (session w2) = Some cssFilter
        ∧ error (session w2) = error (session w1)
    | Throws e =>
        ∃ message, e = ErrorObj ErrorBase message
        ∧ error (session w2) = Some ("Failed to apply filter. " +:+ message)
        ∧ filteredCss (session w2) = filteredCss (session w1)
    end.
Proof.
  intros Hc Hev w1 w2. subst w1 w2.
  pose proof (run_keeps_awaiting events w call Hev Hc) as Hc1.
  unfold_step. rewrite settle_awaited by done. cbn [session].
  rewrite isLoading_resume, originalImage_resume. repeat split; [done|].
  destruct (getVividWarmFilterCss r) as [cssFilter|e] eqn:Hr; [done|].
  destruct (ClientProps.throws_plain_Error r e Hr) as [message ->].
  by exists message.
Qed.

(** C6, as amended: when the read of the chosen file fails, the load-end
    callback runs with no result: the session holds no image and is Idle,
    and no error is set; filter and error are cleared. *)
Theorem failed_read_sets_no_image_and_no_error (w : World) :
  session (step w (ImageLoaded None))
  = {| originalImage := None; filteredCss := None;
       isLoading := isLoading (session w); error := None |}
  ∧ phase (session (step w (ImageLoaded None))) = Idle.
Proof. by rewrite session_ImageLoaded. Qed.

(** C9: in the Requesting state with no error, when the awaited call is
    answered by a text that parses to an object whose [filter] is a
    non-empty string, the session becomes Succeeded: the filter is exactly
    that string, pending is false, the error is still unset and the image
    is kept. *)
Theorem reply_with_filter_succeeds
    (w : World) (call : nat) (text : string) (v : js_value) (descriptor : string) :
  phase (session w) = Requesting →
  error (session w) = None →
  call ∈ awaiting w →
  trim text ≠ "" →
  JSON_parse (trim text) = inr v →
  filter_field v = Some (JString descriptor) →
  descriptor ≠ "" →
  let w' := step w (Settled call (Resolved (Some text))) in
  session w'
  = {| originalImage := originalImage (session w); filteredCss := Some descriptor;
       isLoading := false; error := None |}
  ∧ phase (session w') = Succeeded.
Proof.
  intros [Hi Hl]%phase_Requesting Herr Hc Ht Hp Hf Hd w'. subst w'.
  unfold_step. rewrite settle_awaited by done. cbn [session].
  rewrite (ClientProps.valid_reply text v descriptor Ht Hp Hf Hd).
  unfold applyFilter_resume, setIsLoading, setFilteredCss. cbn.
  rewrite Herr. split; [done|]. unfold phase. cbn. by rewrite Hi.
Qed.

End AnyRuntime.

(** *** The theorems at work, on the sample runtime *)

Lemma invariant_after_every_event_witness :
  let w := run initial_world [ImageLoaded (Some sample_image)] in
  let w' := step w RequestFilter in
  pending_excludes_filter (session w')
  ∧ (RequestFilter = Reset → error (session w') = None)
  ∧ (RequestFilter = RequestFilter → truthy (originalImage (session w)) = true →
     isLoading (session w') = true
     ∧ filteredCss (session w') = None
     ∧ error (session w') = None).
Proof.
  apply (invariant_after_every_event initial_world
           [ImageLoaded (Some sample_image); RequestFilter; Reset]
           [ImageLoaded (Some sample_image)] [Reset] RequestFilter).
  - intros [Hl _]. discriminate Hl.
  - reflexivity.
Defined.

Lemma request_in_Idle_changes_nothing_witness :
  step initial_world RequestFilter = initial_world
  ∧ click_apply initial_world = initial_world.
Proof.
  apply (request_in_Idle_changes_nothing initial_world). reflexivity.
Defined.

Lemma request_while_pending_witness :
  click_apply requesting_world = requesting_world
  ∧ (truthy (originalImage (session requesting_world)) = true →
     issued (applyFilter requesting_world) = S (issued requesting_world)
     ∧ awaiting (applyFilter requesting_world)
       = {[ issued requesting_world ]} ∪ awaiting requesting_world
     ∧ (pending_is_clean (session requesting_world) →
        session (applyFilter requesting_world) = session requesting_world)).
Proof.
  apply (request_while_pending requesting_world). reflexivity.
Defined.

Lemma stale_completion_is_applied_witness :
  let w1 := run requesting_world [Reset] in
  let w2 := step w1 (Settled 0 (Resolved (Some scenario_A_reply))) in
  0 ∈ awaiting w1
  ∧ isLoading (session w2) = false
  ∧ originalImage (session w2) = originalImage (session w1)
  ∧ filteredCss (session w2) = Some "saturate(1.2) contrast(1.1)"
  ∧ error (session w2) = error (session w1).
Proof.
  refine (stale_completion_is_applied (rt := SampleRuntime.sample_runtime)
            requesting_world 0 [Reset] (Resolved (Some scenario_A_reply)) _ _).
  - vm_compute. reflexivity.
  - constructor; [exact I | constructor].
Defined.

(** Scenario A: upload, request, and the reply with the filter. *)
Lemma reply_with_filter_succeeds_witness :
  let w' := step requesting_world (Settled 0 (Resolved (Some scenario_A_reply))) in
  session w'
  = {| originalImage := Some sample_image;
       filteredCss := Some "saturate(1.2) contrast(1.1)";
       isLoading := false; error := None |}
  ∧ phase (session w') = Succeeded.
Proof.
  apply (reply_with_filter_succeeds requesting_world 0 scenario_A_reply
           (JObject [("filter", JString "saturate(1.2) contrast(1.1)")])
           "saturate(1.2) contrast(1.1)").
  - reflexivity.
  - reflexivity.
  - vm_compute. reflexivity.
  - vm_compute. discriminate.
  - vm_compute. reflexivity.
  - reflexivity.
  - discriminate.
Defined.

(** *** Where the handlers part from the described machine *)

(** C1: call 0 is made, the session is reset, and then the call's reply
    arrives: the reset session is empty before it, and holds a filter
    after it.  Likewise when a later request has taken over: the failure
    of call 0 ends the pending state of call 1 and sets an error. *)
Lemma stale_completion_changes_the_session :
  let after_reset := run requesting_world [Reset] in
  let late := step after_reset (Settled 0 (Resolved (Some scenario_A_reply))) in
  let superseded :=
    run after_reset [ImageLoaded (Some sample_image); RequestFilter] in
  let late' := step superseded (Settled 0 (Rejected (ErrorObj ErrorBase "timeout"))) in
  session after_reset
  = {| originalImage := None; filteredCss := None; isLoading := false; error := None |}
  ∧ session late
    = {| originalImage := None; filteredCss := Some "saturate(1.2) contrast(1.1)";
         isLoading := false; error := None |}
  ∧ session late ≠ session after_reset
  ∧ session superseded
    = {| originalImage := Some sample_image; filteredCss := None;
         isLoading := true; error := None |}
  ∧ session late'
    = {| originalImage := Some sample_image; filteredCss := None; isLoading := false;
         error := Some "Failed to apply filter. Gemini API Error: timeout" |}
  ∧ 1 ∈ awaiting late'
  ∧ session late' ≠ session superseded.
Proof.
  repeat split; try (vm_compute; reflexivity); vm_compute; discriminate.
Qed.

(** C2: with call 0 pending, the handler run once more makes call 1. *)
Lemma applyFilter_while_pending_makes_a_second_call :
  isLoading (session requesting_world) = true
  ∧ issued requesting_world = 1
  ∧ awaiting requesting_world = {[ 0 ]}
  ∧ issued (step requesting_world RequestFilter) = 2
  ∧ awaiting (step requesting_world RequestFilter) = {[ 0; 1 ]}
  ∧ step requesting_world RequestFilter ≠ requesting_world.
Proof.
  repeat split; try (vm_compute; reflexivity).
  intros Heq. apply (f_equal issued) in Heq. vm_compute in Heq. discriminate.
Qed.

(** C6: the read of the chosen file fails in the initial session: the
    session is as it was, with no error set. *)
Lemma failed_read_sets_no_error :
  step initial_world (ImageLoaded None) = initial_world
  ∧ error (session (step initial_world (ImageLoaded None))) = None
  ∧ ¬ is_Some (error (session (step initial_world (ImageLoaded None)))).
Proof.
  repeat split. intros [x Hx]. discriminate Hx.
Qed.

End SessionProps.

(** ** The scenarios of the specification, run on the sample runtime *)

Module Scenarios.
Import Js GeminiService App Notions SampleRuntime.

Example trim_strips_both_ends :
  trim (String "009" " {} " +:+ String "010" (String "160" "")) = "{}".
Proof. reflexivity. Qed.

Example parse_scenario_A_reply :
  parse_json scenario_A_reply
  = inr (JObject [("filter", JString "saturate(1.2) contrast(1.1)")]).
Proof. vm_compute. reflexivity. Qed.

Example parse_keeps_duplicates_in_order :
  parse_json ("{" +:+ q +:+ "filter" +:+ q +:+ ":1, "
                  +:+ q +:+ "filter" +:+ q +:+ ":" +:+ q +:+ "x" +:+ q +:+ "}")
  = inr (JObject [("filter", JNumber "1"); ("filter", JString "x")])
  ∧ filter_field (JObject [("filter", JNumber "1"); ("filter", JString "x")])
    = Some (JString "x").
Proof. split; vm_compute; reflexivity. Qed.

Example parse_rejects_bare_words :
  parse_json "not json" = inl "Unexpected token in JSON".
Proof. vm_compute. reflexivity. Qed.

(** Scenario B: the reply holds an empty filter. *)
Example scenario_B :
  let reply := "{" +:+ q +:+ "filter" +:+ q +:+ ": " +:+ q +:+ q +:+ "}" in
  let w := step requesting_world (Settled 0 (Resolved (Some reply))) in
  session w
  = {| originalImage := Some sample_image; filteredCss := None; isLoading := false;
       error := Some ("Failed to apply filter. Gemini API Error: "
                      +:+ "Invalid or empty filter value in API response.") |}
  ∧ phase (session w) = Failed.
Proof. split; vm_compute; reflexivity. Qed.

(** Scenario C: the call is rejected with a transport failure. *)
Example scenario_C :
  let w := step requesting_world (Settled 0 (Rejected (ErrorObj ErrorBase "timeout"))) in
  session w
  = {| originalImage := Some sample_image; filteredCss := None; isLoading := false;
       error := Some "Failed to apply filter. Gemini API Error: timeout" |}
  ∧ phase (session w) = Failed.
Proof. split; vm_compute; reflexivity. Qed.

(** Scenario D: the environment holds other variables but no credential. *)
Example scenario_D :
  App.load {[ "HOME" := "/home/user" ]}
  = Throws (ErrorObj ErrorBase "API_KEY environment variable not set.").
Proof. vm_compute. reflexivity. Qed.

(** With the credential the component starts in the empty session. *)
Example load_with_credential :
  App.load {[ "API_KEY" := "k" ]} = Returns initial_world.
Proof. vm_compute. reflexivity. Qed.

End Scenarios.

(** ** Further properties of the client *)

Module MoreClientProps.
Import Js GeminiService Notions MoreNotions.

(** *** [trim] and white space *)

Lemma only_white_space_app (a b : string) :
  only_white_space (a +:+ b) = only_white_space a && only_white_space b.
Proof.
  induction a as [|c a IH]; simpl; [done|].
  rewrite IH. by rewrite andb_assoc.
Qed.

Lemma trimStart_only_white_space (s : string) :
  only_white_space s = true → trimStart s = "".
Proof.
  induction s as [|c s IH]; simpl; [done|].
  intros [Hc Hs]%andb_true_iff. rewrite Hc. by apply IH.
Qed.

Lemma trimEnd_only_white_space (s : string) :
  only_white_space s = true → trimEnd s = "".
Proof.
  induction s as [|c s IH]; simpl; [done|].
  intros [Hc Hs]%andb_true_iff. rewrite (IH Hs). by rewrite Hc.
Qed.

Lemma trimStart_app_white (pre s : string) :
  only_white_space pre = true → trimStart (pre +:+ s) = trimStart s.
Proof.
  induction pre as [|c pre IH]; simpl; [done|].
  intros [Hc Hp]%andb_true_iff. rewrite Hc. by apply IH.
Qed.

Lemma trimStart_app_other (s post : string) :
  only_white_space s = false → trimStart (s +:+ post) = trimStart s +:+ post.
Proof.
  induction s as [|c s IH]; simpl; [done|].
  destruct (is_white_space c); simpl; [exact IH | done].
Qed.

Lemma trimEnd_app_white (s post : string) :
  only_white_space post = true → trimEnd (s +:+ post) = trimEnd s.
Proof.
  intros Hp. induction s as [|c s IH]; simpl.
  - by apply trimEnd_only_white_space.
  - by rewrite IH.
Qed.

(** White space around a text does not change what [trim] keeps. *)
Lemma trim_padding (pre s post : string) :
  only_white_space pre = true → only_white_space post = true →
  trim (pre +:+ s +:+ post) = trim s.
Proof.
  intros Hpre Hpost. unfold trim. rewrite trimStart_app_white by done.
  destruct (only_white_space s) eqn:Hs.
  - rewrite !trimStart_only_white_space; [done..|].
    rewrite only_white_space_app, Hs, Hpost. done.
  - rewrite trimStart_app_other by done. by apply trimEnd_app_white.
Qed.

Section AnyRuntime.
Context `{rt : JsRuntime}.

(** *** What a return and what a throw of the client tell *)

Lemma returns_inv (r : api_result) (css : string) :
  getVividWarmFilterCss r = Returns css →
  ∃ text v,
    r = Resolved (Some text)
    ∧ trim text ≠ ""
    ∧ JSON_parse (trim text) = inr v
    ∧ filter_field v = Some (JString css)
    ∧ css ≠ "".
Proof.
  destruct r as [[text|]|[cls m|shown]]; try discriminate.
  rewrite ClientProps.on_reply.
  destruct (String.eqb_spec (trim text) "") as [|Hne]; [discriminate|].
  destruct (JSON_parse (trim text)) as [m|v] eqn:Hp; [discriminate|].
  destruct (get_filter v) as [[[| b | num | t | items | members] | |]|[cls m|shown]]
    eqn:Hg; try discriminate.
  destruct (0 <? String.length t)%nat eqn:Hlen; [|discriminate].
  intros [= <-]. exists text, v. repeat split; try done.
  - by apply ClientProps.get_filter_string.
  - by apply ClientProps.length_pos_nonempty.
Qed.

Lemma throws_inv (r : api_result) (e : js_thrown) :
  getVividWarmFilterCss r = Throws e →
  (∃ underlying, e = ErrorObj ErrorBase ("Gemini API Error: " +:+ underlying))
  ∨ e = ErrorObj ErrorBase
          "An unexpected error occurred while communicating with the Gemini API.".
Proof.
  unfold getVividWarmFilterCss, try_catch.
  destruct (try_body r) as [css|[cls m|shown]]; [discriminate|..];
    cbn [catch_block]; intros [= <-]; eauto.
Qed.

(** X2: whatever the client returns is the non-empty string held by the
    [filter] member of the reply, parsed from its trimmed text; nothing
    is returned for a rejected call or a reply without text. *)
Theorem returned_descriptor_is_the_validated_filter (r : api_result) (css : string) :
  getVividWarmFilterCss r = Returns css →
  css ≠ ""
  ∧ ∃ text v,
      r = Resolved (Some text)
      ∧ JSON_parse (trim text) = inr v
      ∧ filter_field v = Some (JString css).
Proof.
  intros (text & v & -> & _ & Hp & Hf & Hne)%returns_inv.
  split; [done|]. by exists text, v.
Qed.

(** X3: a reply made of white space only, the empty reply included, is
    reported as an empty response, and the parser is not consulted. *)
Theorem blank_reply_is_an_empty_response (text : string) :
  only_white_space text = true →
  getVividWarmFilterCss (Resolved (Some text))
  = Throws (ErrorObj ErrorBase "Gemini API Error: API returned an empty response.").
Proof.
  intros Hw. apply ClientProps.empty_reply. unfold trim.
  by rewrite trimStart_only_white_space.
Qed.

(** X4: white space before and after the reply text changes nothing of
    what the client returns or throws. *)
Theorem padding_of_the_reply_is_ignored (pre text post : string) :
  only_white_space pre = true →
  only_white_space post = true →
  getVividWarmFilterCss (Resolved (Some (pre +:+ text +:+ post)))
  = getVividWarmFilterCss (Resolved (Some text)).
Proof.
  intros Hpre Hpost. rewrite !ClientProps.on_reply.
  by rewrite trim_padding.
Qed.

End AnyRuntime.

(** X1: the service module loads exactly when [API_KEY] is set to a
    non-empty string, and the client then carries that very string; an
    [API_KEY] set to the empty string is refused like a missing one. *)
Theorem load_succeeds_iff_key_is_not_empty
    (env : gmap string string) (m : GeminiService.Module_) :
  GeminiService.load env = Returns m
  ↔ ∃ key, env !! "API_KEY" = Some key ∧ key ≠ ""
           ∧ m = {| ai := {| apiKey := Some key |} |}.
Proof.
  unfold GeminiService.load. destruct (env !! "API_KEY") as [key|]; simpl.
  - destruct (String.eqb_spec key "") as [->|Hne]; simpl.
    + split; [discriminate|]. intros (k & [= <-] & Hk & _). done.
    + split.
      * intros [= <-]. by exists key.
      * intros (k & [= <-] & _ & ->). done.
  - split; [discriminate|]. intros (k & Hk & _). discriminate.
Qed.

Lemma returned_descriptor_is_the_validated_filter_witness :
  "saturate(1.2) contrast(1.1)" ≠ ""
  ∧ ∃ text v,
      Resolved (Some scenario_A_reply) = Resolved (Some text)
      ∧ JSON_parse (trim text) = inr v
      ∧ filter_field v = Some (JString "saturate(1.2) contrast(1.1)").
Proof.
  refine (returned_descriptor_is_the_validated_filter
            (rt := SampleRuntime.sample_runtime)
            (Resolved (Some scenario_A_reply)) "saturate(1.2) contrast(1.1)" _).
  vm_compute. reflexivity.
Defined.

Lemma blank_reply_is_an_empty_response_witness :
  getVividWarmFilterCss (Resolved (Some (String "009" (String "010" " "))))
  = Throws (ErrorObj ErrorBase "Gemini API Error: API returned an empty response.").
Proof.
  refine (blank_reply_is_an_empty_response (rt := SampleRuntime.sample_runtime)
            (String "009" (String "010" " ")) _).
  reflexivity.
Defined.

Lemma padding_of_the_reply_is_ignored_witness :
  getVividWarmFilterCss
    (Resolved (Some (String "010" "  " +:+ scenario_A_reply +:+ String "013" (String "010" ""))))
  = getVividWarmFilterCss (Resolved (Some scenario_A_reply)).
Proof.
  refine (padding_of_the_reply_is_ignored (rt := SampleRuntime.sample_runtime)
            (String "010" "  ") scenario_A_reply (String "013" (String "010" "")) _ _);
    reflexivity.
Defined.

End MoreClientProps.

(** ** Further properties of the session and of the page *)

Module MoreSessionProps.
Import Js GeminiService App ImageUploader Page Notions MoreNotions SessionProps.

Section AnyRuntime.
Context `{rt : JsRuntime}.

(** *** Invariants of the handlers *)

Lemma step_filter_not_empty (w : World) (e : Event) :
  filter_not_empty (session w) → filter_not_empty (session (step w e)).
Proof.
  intros Hinv. destruct e as [result| | |call r]; unfold_step.
  - rewrite session_ImageLoaded. intros css [=].
  - destruct (truthy (originalImage (session w))) eqn:Hi.
    + rewrite applyFilter_with_image by done. intros css [=].
    + by rewrite applyFilter_without_image.
  - rewrite session_Reset. intros css [=].
  - destruct (decide (call ∈ awaiting w)) as [Hc|Hc];
      [|by rewrite settle_not_awaited].
    rewrite settle_awaited by done. cbn [session].
    destruct (getVividWarmFilterCss r) as [css'|err] eqn:Hr.
    + apply MoreClientProps.returns_inv in Hr as (_ & _ & _ & _ & _ & _ & Hne).
      intros css [= <-]. done.
    + intros css Hcss. by apply Hinv.
Qed.

Lemma step_error_well_formed (w : World) (e : Event) :
  error_well_formed (session w) → error_well_formed (session (step w e)).
Proof.
  intros Hinv. destruct e as [result| | |call r]; unfold_step.
  - rewrite session_ImageLoaded. intros m [=].
  - destruct (truthy (originalImage (session w))) eqn:Hi.
    + rewrite applyFilter_with_image by done. intros m [=].
    + by rewrite applyFilter_without_image.
  - rewrite session_Reset. intros m [=].
  - destruct (decide (call ∈ awaiting w)) as [Hc|Hc];
      [|by rewrite settle_not_awaited].
    rewrite settle_awaited by done. cbn [session].
    destruct (getVividWarmFilterCss r) as [css'|err] eqn:Hr.
    + intros m Hm. by apply Hinv.
    + apply MoreClientProps.throws_inv in Hr as [[underlying ->] | ->];
        intros m [= <-]; [left; by exists underlying | by right].
Qed.

Lemma step_pending_has_call (w : World) (e : Event) :
  pending_has_call w → pending_has_call (step w e).
Proof.
  intros Hinv. destruct e as [result| | |call r]; unfold_step.
  - exact Hinv.
  - destruct (truthy (originalImage (session w))) eqn:Hi.
    + rewrite applyFilter_with_image by done. intros _. exists (issued w).
      cbn. set_solver.
    + by rewrite applyFilter_without_image.
  - intros Hl. discriminate Hl.
  - destruct (decide (call ∈ awaiting w)) as [Hc|Hc];
      [|by rewrite settle_not_awaited].
    rewrite settle_awaited by done. intros Hl. cbn [session] in Hl.
    by rewrite isLoading_resume in Hl.
Qed.

Lemma run_invariant (P : World → Prop) (events : list Event) (w : World) :
  (∀ w e, P w → P (step w e)) → P w → P (run w events).
Proof.
  intros Hstep. revert w.
  induction events as [|e events IH]; intros w Hw; [done|].
  rewrite run_cons. apply IH. by apply Hstep.
Qed.

(** X6: through any events, a session whose stored filter is not the
    empty string keeps one that is not: the handlers store a filter only
    when the client has returned it. *)
Theorem stored_filter_is_never_empty (w : World) (events : list Event) :
  filter_not_empty (session w) →
  filter_not_empty (session (run w events)).
Proof.
  intros Hw.
  apply (run_invariant (λ w, filter_not_empty (session w))); [|done].
  intros; by apply step_filter_not_empty.
Qed.

(** X7: through any events, every stored error is "Failed to apply
    filter. " followed by a "Gemini API Error: " message or by the
    client's fixed message for a failure that is no [Error]; the
    handler's own fallback, "An unknown error occurred.", is never
    stored. *)
Theorem stored_error_is_always_well_formed (w : World) (events : list Event) :
  error_well_formed (session w) →
  error_well_formed (session (run w events))
  ∧ error (session (run w events))
    ≠ Some ("Failed to apply filter. " +:+ "An unknown error occurred.").
Proof.
  intros Hw.
  assert (error_well_formed (session (run w events))) as Hrun.
  { apply (run_invariant (λ w, error_well_formed (session w))); [|done].
    intros; by apply step_error_well_formed. }
  split; [done|]. intros Herr.
  destruct (Hrun _ Herr) as [[underlying Hu] | Hu]; discriminate Hu.
Qed.

(** X8: through any events, a pending session has a call awaited: the
    loader is never shown with nothing left to end it. *)
Theorem pending_session_awaits_a_call (w : World) (events : list Event) :
  pending_has_call w → pending_has_call (run w events).
Proof.
  intros Hw. apply (run_invariant pending_has_call); [|done].
  apply step_pending_has_call.
Qed.

(** X15: requests and settlements, however many and in whatever order,
    never change the held image: only the end of a file read and a reset
    do. *)
Theorem request_cycle_keeps_the_image (w : World) (events : list Event) :
  Forall (λ e, of_request_cycle e = true) events →
  originalImage (session (run w events)) = originalImage (session w).
Proof.
  intros Hev. revert w.
  induction Hev as [|e events He _ IH]; intros w; [done|].
  rewrite run_cons, IH.
  destruct e as [result| | |call r]; try discriminate He; unfold_step.
  - unfold applyFilter. by case_match.
  - unfold settle. case_decide; [|done]. cbn [session].
    apply originalImage_resume.
Qed.

(** *** A request and its own settlement *)

(** X5: a request made with an image held, followed by the settlement of
    the call it made, ends not pending, with the image kept and with
    exactly one of the two results: a non-empty filter and no error, or
    an error and no filter. *)
Theorem request_then_settlement_gives_one_result (w : World) (r : api_result) :
  truthy (originalImage (session w)) = true →
  let w' := run w [RequestFilter; Settled (issued w) r] in
  isLoading (session w') = false
  ∧ originalImage (session w') = originalImage (session w)
  ∧ ((∃ css, filteredCss (session w') = Some css ∧ css ≠ ""
             ∧ error (session w') = None)
     ∨ (∃ m, error (session w') = Some ("Failed to apply filter. " +:+ m)
             ∧ filteredCss (session w') = None)).
Proof.
  intros Hi w'. subst w'. rewrite run_cons, run_cons, run_nil. unfold_step.
  rewrite applyFilter_with_image by done.
  rewrite settle_awaited by (cbn; set_solver). cbn [session].
  rewrite isLoading_resume, originalImage_resume. repeat split.
  destruct (getVividWarmFilterCss r) as [css|err] eqn:Hr.
  - left. exists css.
    apply MoreClientProps.returns_inv in Hr as (_ & _ & _ & _ & _ & _ & Hne).
    done.
  - right. destruct (ClientProps.throws_plain_Error r err Hr) as [m ->].
    by exists m.
Qed.

(** X14: in the Requesting state with no filter held, when the awaited
    call fails the session becomes Failed: the error is "Failed to apply
    filter. " followed by the client's message, pending is false, and
    filter and image are as they were. *)
Theorem failed_reply_fails_the_session
    (w : World) (call : nat) (r : api_result) (e : js_thrown) :
  phase (session w) = Requesting →
  filteredCss (session w) = None →
  call ∈ awaiting w →
  getVividWarmFilterCss r = Throws e →
  let w' := step w (Settled call r) in
  ∃ message,
    e = ErrorObj ErrorBase message
    ∧ session w'
      = {| originalImage := originalImage (session w); filteredCss := None;
           isLoading := false;
           error := Some ("Failed to apply filter. " +:+ message) |}
    ∧ phase (session w') = Failed.
Proof.
  intros [Hi Hl]%phase_Requesting Hf Hc Hr w'. subst w'.
  destruct (ClientProps.throws_plain_Error r e Hr) as [message ->].
  exists message. split; [done|].
  unfold_step. rewrite settle_awaited by done. cbn [session]. rewrite Hr.
  unfold applyFilter_resume, setIsLoading, setError. cbn. rewrite Hf.
  split; [done|]. unfold phase. cbn. by rewrite Hi.
Qed.

(** X13: from Ready, Succeeded or Failed, a click on the apply button
    runs the handler: the old filter and the old error are cleared, the
    image is kept, the session is Requesting and one more call is
    awaited. *)
Theorem click_apply_starts_afresh (w : World) :
  phase (session w) ≠ Idle →
  phase (session w) ≠ Requesting →
  session (click_apply w)
  = {| originalImage := originalImage (session w); filteredCss := None;
       isLoading := true; error := None |}
  ∧ phase (session (click_apply w)) = Requesting
  ∧ issued (click_apply w) = S (issued w)
  ∧ awaiting (click_apply w) = {[ issued w ]} ∪ awaiting w.
Proof.
  intros Hidle Hreq.
  assert (truthy (originalImage (session w)) = true) as Hi.
  { destruct (truthy (originalImage (session w))) eqn:Hi; [done|].
    by apply phase_Idle in Hi. }
  assert (isLoading (session w) = false) as Hl.
  { destruct (isLoading (session w)) eqn:Hl; [|done].
    exfalso. apply Hreq. by apply phase_Requesting. }
  unfold click_apply, apply_button_enabled, shows_buttons. rewrite Hi, Hl.
  cbn [andb negb]. rewrite applyFilter_with_image by done. cbn.
  repeat split. unfold phase. cbn. by rewrite Hi.
Qed.

End AnyRuntime.

Lemma stored_filter_is_never_empty_witness :
  filter_not_empty
    (session (run requesting_world [Settled 0 (Resolved (Some scenario_A_reply))])).
Proof.
  refine (stored_filter_is_never_empty (rt := SampleRuntime.sample_runtime)
            requesting_world [Settled 0 (Resolved (Some scenario_A_reply))] _).
  intros css Hcss. discriminate Hcss.
Defined.

Lemma stored_error_is_always_well_formed_witness :
  let w := run requesting_world [Settled 0 (Rejected (NonError "offline"))] in
  error_well_formed (session w)
  ∧ error (session w)
    ≠ Some ("Failed to apply filter. " +:+ "An unknown error occurred.").
Proof.
  refine (stored_error_is_always_well_formed (rt := SampleRuntime.sample_runtime)
            requesting_world [Settled 0 (Rejected (NonError "offline"))] _).
  intros m Hm. discriminate Hm.
Defined.

Lemma pending_session_awaits_a_call_witness :
  pending_has_call
    (run initial_world [ImageLoaded (Some sample_image); RequestFilter; Reset;
                        ImageLoaded (Some sample_image); RequestFilter]).
Proof.
  refine (pending_session_awaits_a_call (rt := SampleRuntime.sample_runtime)
            initial_world
            [ImageLoaded (Some sample_image); RequestFilter; Reset;
             ImageLoaded (Some sample_image); RequestFilter] _).
  intros Hl. discriminate Hl.
Defined.

Lemma request_cycle_keeps_the_image_witness :
  originalImage
    (session (run requesting_world
                [RequestFilter; Settled 1 (Rejected (NonError "offline"));
                 Settled 0 (Resolved (Some scenario_A_reply))]))
  = originalImage (session requesting_world).
Proof.
  refine (request_cycle_keeps_the_image (rt := SampleRuntime.sample_runtime)
            requesting_world
            [RequestFilter; Settled 1 (Rejected (NonError "offline"));
             Settled 0 (Resolved (Some scenario_A_reply))] _).
  repeat constructor.
Defined.

Lemma request_then_settlement_gives_one_result_witness :
  let w := run initial_world [ImageLoaded (Some sample_image)] in
  let w' := run w [RequestFilter; Settled (issued w) (Resolved (Some "{}"))] in
  isLoading (session w') = false
  ∧ originalImage (session w') = originalImage (session w)
  ∧ ((∃ css, filteredCss (session w') = Some css ∧ css ≠ ""
             ∧ error (session w') = None)
     ∨ (∃ m, error (session w') = Some ("Failed to apply filter. " +:+ m)
             ∧ filteredCss (session w') = None)).
Proof.
  refine (request_then_settlement_gives_one_result
            (rt := SampleRuntime.sample_runtime)
            (run initial_world [ImageLoaded (Some sample_image)])
            (Resolved (Some "{}")) _).
  reflexivity.
Defined.

Lemma failed_reply_fails_the_session_witness :
  let w' := step requesting_world (Settled 0 (Rejected (ErrorObj TypeError "fetch failed"))) in
  ∃ message,
    ErrorObj ErrorBase "Gemini API Error: fetch failed" = ErrorObj ErrorBase message
    ∧ session w'
      = {| originalImage := originalImage (session requesting_world);
           filteredCss := None; isLoading := false;
           error := Some ("Failed to apply filter. " +:+ message) |}
    ∧ phase (session w') = Failed.
Proof.
  refine (failed_reply_fails_the_session (rt := SampleRuntime.sample_runtime)
            requesting_world 0 (Rejected (ErrorObj TypeError "fetch failed"))
            (ErrorObj ErrorBase "Gemini API Error: fetch failed") _ _ _ _).
  - reflexivity.
  - reflexivity.
  - vm_compute. reflexivity.
  - reflexivity.
Defined.

Lemma click_apply_starts_afresh_witness :
  let w := run requesting_world [Settled 0 (Rejected (ErrorObj ErrorBase "timeout"))] in
  session (click_apply w)
  = {| originalImage := originalImage (session w); filteredCss := None;
       isLoading := true; error := None |}
  ∧ phase (session (click_apply w)) = Requesting
  ∧ issued (click_apply w) = S (issued w)
  ∧ awaiting (click_apply w) = {[ issued w ]} ∪ awaiting w.
Proof.
  refine (click_apply_starts_afresh
            (run requesting_world [Settled 0 (Rejected (ErrorObj ErrorBase "timeout"))])
            _ _);
    vm_compute; discriminate.
Defined.

End MoreSessionProps.

(** ** Properties of the page *)

Module PageProps.
Import Js GeminiService App ImageUploader Page Notions MoreNotions SessionProps.

Section AnyRuntime.
Context `{rt : JsRuntime}.

Lemma ui_run_cons (p : Page) (e : UiEvent) (events : list UiEvent) :
  ui_run p (e :: events) = ui_run (ui_step p e) events.
Proof. reflexivity. Qed.

Lemma panel_shown (s : Session) (pnl : Panel) :
  panel (render s) = Some pnl →
  ∃ url, originalImage s = Some url ∧ url ≠ ""
    ∧ pnl = {| original := ImageDisplay "Original" url None false;
               vivid := ImageDisplay "Vivid Warm" url (filteredCss s) (isLoading s);
               alert := if truthy (error s) then error s else None;
               apply_disabled := isLoading s;
               apply_label := if isLoading s then "Applying Filter..."
                              else "Apply Vivid Warm Filter" |}.
Proof.
  unfold render. cbn [panel]. destruct (originalImage s) as [url|]; [|done].
  destruct (truthy (Some url)) eqn:Hu; [|done].
  intros [= <-]. exists url. repeat split.
  intros ->. discriminate Hu.
Qed.

(** *** One call at a time *)

Lemma ui_step_one_call_at_most (p : Page) (e : UiEvent) :
  is_reset e = false →
  one_call_at_most (world p) → one_call_at_most (world (ui_step p e)).
Proof.
  intros He Hinv. unfold one_call_at_most in *.
  destruct e as [files|files|result| | |call r]; try discriminate He;
    cbn [ui_step].
  - destruct (uploader _), (handleFileChange files); exact Hinv.
  - destruct (uploader _), (handleDrop files); exact Hinv.
  - destruct (reading p); [done|]. cbn [world]. by rewrite session_ImageLoaded.
  - cbn [world]. unfold click_apply, apply_button_enabled, shows_buttons.
    destruct (truthy (originalImage (session (world p)))) eqn:Hi; [|exact Hinv].
    revert Hinv. destruct (isLoading (session (world p))) eqn:Hl;
      cbn [andb negb]; intros Hinv; [by rewrite Hl|].
    rewrite applyFilter_with_image by done. cbn.
    rewrite Hinv. rewrite (right_id_L ∅ (∪)). apply size_singleton.
  - cbn [world]. unfold_step.
    destruct (decide (call ∈ awaiting (world p))) as [Hc|Hc];
      [|by rewrite settle_not_awaited].
    rewrite settle_awaited by done. cbn [session awaiting].
    rewrite isLoading_resume.
    destruct (isLoading (session (world p))).
    + apply size_1_elem_of in Hinv as [only Honly].
      apply leibniz_equiv in Honly. rewrite Honly in Hc |- *.
      apply elem_of_singleton in Hc as ->. apply difference_diag_L.
    + rewrite Hinv in Hc. by apply not_elem_of_empty in Hc.
Qed.

(** X9: as long as the user does not reset, the disabled apply button
    keeps the calls apart: at most one call is awaited at any time, and
    the session is pending exactly while one is. *)
Theorem without_reset_at_most_one_call (p : Page) (events : list UiEvent) :
  one_call_at_most (world p) →
  Forall (λ e, is_reset e = false) events →
  let w := world (ui_run p events) in
  (size (awaiting w) ≤ 1)%nat
  ∧ (isLoading (session w) = true ↔ awaiting w ≠ ∅).
Proof.
  intros Hp Hev w.
  assert (one_call_at_most w) as Hw.
  { subst w. revert p Hp.
    induction Hev as [|e events He _ IH]; intros p Hp; [done|].
    rewrite ui_run_cons. apply IH. by apply ui_step_one_call_at_most. }
  unfold one_call_at_most in Hw. destruct (isLoading (session w)).
  - split; [lia|]. split; [|done]. intros _ Hempty.
    rewrite Hempty in Hw. by rewrite size_empty in Hw.
  - rewrite Hw. rewrite size_empty. split; [lia|]. split; [done|]. done.
Qed.

(** *** The uploader *)


(** *** What is shown *)

(** X11: in every state the handlers lead to, when the panel is shown
    both displays show the held image, the first with no filter; the
    second carries the stored filter as its style, or "none" when there
    is none, and never an empty style; and every stored error is in the
    alert. *)
Theorem panel_shows_the_session (w : World) (events : list Event) (pnl : Panel) :
  filter_not_empty (session w) →
  error_well_formed (session w) →
  let s := session (run w events) in
  panel (render s) = Some pnl →
  originalImage s = Some (imageUrl (original pnl))
  ∧ imageUrl (vivid pnl) = imageUrl (original pnl)
  ∧ filter_style (original pnl) = "none"
  ∧ filter_style (vivid pnl) = default "none" (filteredCss s)
  ∧ filter_style (vivid pnl) ≠ ""
  ∧ overlay (vivid pnl) = isLoading s
  ∧ alert pnl = error s.
Proof.
  intros Hf He s Hpanel.
  assert (filter_not_empty s) as Hfs.
  { subst s.
    apply (MoreSessionProps.run_invariant (λ w, filter_not_empty (session w)));
      [|done].
    intros; by apply MoreSessionProps.step_filter_not_empty. }
  assert (error_well_formed s) as Hes.
  { subst s.
    apply (MoreSessionProps.run_invariant (λ w, error_well_formed (session w)));
      [|done].
    intros; by apply MoreSessionProps.step_error_well_formed. }
  apply panel_shown in Hpanel as (url & Hurl & Hne & ->). cbn.
  assert (style_filter (filteredCss s) = default "none" (filteredCss s)) as Hstyle.
  { unfold style_filter. destruct (filteredCss s) as [css|] eqn:Hcss; [|done].
    destruct (String.eqb_spec css "") as [->|]; [|done].
    by destruct (Hfs "" Hcss). }
  repeat split; try done.
  - rewrite Hstyle. destruct (filteredCss s) as [css|] eqn:Hcss; cbn; [|done].
    by apply Hfs.
  - destruct (error s) as [m|] eqn:Hm; [|done]. cbn.
    destruct (Hes m Hm) as [[underlying ->] | ->]; done.
Qed.

(** *** From the file to the filter *)

(** X12: on the fresh page, a picked list with a first file, the end of
    its read with a non-empty data URL, a click on the apply button and a
    reply holding a non-empty filter lead to the session with that image
    and that filter, not pending and without error, with no read and no
    call left. *)
Theorem pick_read_apply_reply
    (files : option (list File)) (file : File) (url text : string)
    (v : js_value) (css : string) :
  handleFileChange files = Some file →
  url ≠ "" →
  trim text ≠ "" →
  JSON_parse (trim text) = inr v →
  filter_field v = Some (JString css) →
  css ≠ "" →
  ui_run initial_page
    [PickFiles files; ReadEnds (Some url); ClickApply;
     CallSettles 0 (Resolved (Some text))]
  = {| world := {| session := {| originalImage := Some url; filteredCss := Some css;
                                 isLoading := false; error := None |};
                   issued := 1;
                   awaiting := ∅ |};
       reading := 0 |}.
Proof.
  intros Hfile Hurl Ht Hp Hf Hcss.
  assert (truthy (Some url) = true) as Htruthy.
  { cbn. by destruct (String.eqb_spec url ""). }
  set (loaded := {| session := {| originalImage := Some url; filteredCss := None;
                                  isLoading := false; error := None |};
                    issued := 0; awaiting := ∅ |}).
  assert (ui_step initial_page (PickFiles files)
          = {| world := initial_world; reading := 1 |}) as Hpick.
  { cbn [ui_step]. rewrite Hfile. reflexivity. }
  assert (ui_step {| world := initial_world; reading := 1 |} (ReadEnds (Some url))
          = {| world := loaded; reading := 0 |}) as Hread by reflexivity.
  assert (click_apply loaded = applyFilter loaded) as Hclick.
  { unfold click_apply, apply_button_enabled, shows_buttons.
    change (originalImage (session loaded)) with (Some url).
    by rewrite Htruthy. }
  rewrite !ui_run_cons, Hpick, Hread. cbn [ui_step world reading].
  rewrite Hclick, applyFilter_with_image by done.
  unfold ui_run. cbn [foldl]. unfold_step.
  rewrite settle_awaited by (cbn; set_solver). cbn [session issued awaiting loaded].
  rewrite (ClientProps.valid_reply text v css Ht Hp Hf Hcss).
  cbn. repeat f_equal; set_solver.
Qed.

End AnyRuntime.

Lemma without_reset_at_most_one_call_witness :
  let w := world (ui_run initial_page
                    [PickFiles (Some [sample_file]); ReadEnds (Some sample_image);
                     ClickApply; ClickApply]) in
  (size (awaiting w) ≤ 1)%nat
  ∧ (isLoading (session w) = true ↔ awaiting w ≠ ∅).
Proof.
  refine (without_reset_at_most_one_call (rt := SampleRuntime.sample_runtime)
            initial_page
            [PickFiles (Some [sample_file]); ReadEnds (Some sample_image);
             ClickApply; ClickApply] _ _).
  - reflexivity.
  - repeat constructor.
Defined.


Lemma panel_shows_the_session_witness :
  let s := session (run requesting_world
                      [Settled 0 (Resolved (Some scenario_A_reply))]) in
  let pnl :=
    {| original := ImageDisplay "Original" sample_image None false;
       vivid := ImageDisplay "Vivid Warm" sample_image
                  (Some "saturate(1.2) contrast(1.1)") false;
       alert := None; apply_disabled := false;
       apply_label := "Apply Vivid Warm Filter" |} in
  originalImage s = Some (imageUrl (original pnl))
  ∧ imageUrl (vivid pnl) = imageUrl (original pnl)
  ∧ filter_style (original pnl) = "none"
  ∧ filter_style (vivid pnl) = default "none" (filteredCss s)
  ∧ filter_style (vivid pnl) ≠ ""
  ∧ overlay (vivid pnl) = isLoading s
  ∧ alert pnl = error s.
Proof.
  refine (panel_shows_the_session (rt := SampleRuntime.sample_runtime)
            requesting_world [Settled 0 (Resolved (Some scenario_A_reply))]
            _ _ _ _).
  - intros css Hcss. discriminate Hcss.
  - intros m Hm. discriminate Hm.
  - vm_compute. reflexivity.
Defined.

Lemma pick_read_apply_reply_witness :
  ui_run initial_page
    [PickFiles (Some [sample_file]); ReadEnds (Some sample_image); ClickApply;
     CallSettles 0 (Resolved (Some scenario_A_reply))]
  = {| world := {| session := {| originalImage := Some sample_image;
                                 filteredCss := Some "saturate(1.2) contrast(1.1)";
                                 isLoading := false; error := None |};
                   issued := 1;
                   awaiting := ∅ |};
       reading := 0 |}.
Proof.
  refine (pick_read_apply_reply (rt := SampleRuntime.sample_runtime)
            (Some [sample_file]) sample_file sample_image scenario_A_reply
            (JObject [("filter", JString "saturate(1.2) contrast(1.1)")])
            "saturate(1.2) contrast(1.1)" _ _ _ _ _ _).
  - reflexivity.
  - discriminate.
  - vm_compute. discriminate.
  - vm_compute. reflexivity.
  - reflexivity.
  - discriminate.
Defined.

End PageProps.
